(** * Optimus-OS: the process VM, the compiler front end and the process manager

    A shallow embedding of
    - [src/services/VirtualMachine.ts] ([ProcessVM]),
    - the [Compiler] class of [src/unnamed/part_001] (second, current version),
    - the [ProcessManager] class of [src/unnamed/part_000].

    JS numbers are IEEE doubles, modelled by Rocq's primitive [float]; the
    stack values, the program counter, the frame and heap pointers are all
    JS numbers.  Host functions that [PrimFloat] does not provide
    ([Math.sin], [%], [DataView] float encodings, number formatting, ...)
    are the fields of a [Host] record: every theorem holds for any host. *)

From Stdlib Require Import ZArith List String Ascii Bool Lia.
From Stdlib Require Import PrimFloat SpecFloat FloatOps.
Import ListNotations.
Open Scope Z_scope.

(* ------------------------------------------------------------------ *)
(** ** JS numbers *)

Module Num.

(** [x] as a mathematical integer, when it is one. *)
Definition to_int (x : float) : option Z :=
  match Prim2SF x with
  | S754_zero _ => Some 0
  | S754_finite s m e =>
      let a :=
        if 0 <=? e then Some (Z.pos m * 2 ^ e)
        else if Z.pos m mod 2 ^ (- e) =? 0 then Some (Z.pos m / 2 ^ (- e))
        else None in
      match a with
      | Some v => Some (if s then - v else v)
      | None => None
      end
  | _ => None
  end.

(** ToIntegerOrInfinity on a finite number (truncation toward zero);
    [NaN] gives 0.  Used for [DataView] byte offsets. *)
Definition trunc (x : float) : Z :=
  match Prim2SF x with
  | S754_finite s m e =>
      let a := if 0 <=? e then Z.pos m * 2 ^ e else Z.pos m / 2 ^ (- e) in
      if s then - a else a
  | _ => 0
  end.

(** The double nearest to an integer. *)
Definition of_Z (z : Z) : float :=
  SF2Prim (SpecFloat.binary_normalize prec emax z 0 false).

(** [Math.ceil]. *)
Definition ceil (x : float) : float :=
  match Prim2SF x with
  | S754_finite s m e =>
      if 0 <=? e then x
      else
        let q := Z.pos m / 2 ^ (- e) in
        let r := Z.pos m mod 2 ^ (- e) in
        if s then (if q =? 0 then (- 0)%float else of_Z (- q))
        else of_Z (if r =? 0 then q else q + 1)
  | _ => x
  end.

End Num.

(** A value popped from the JS array stack: [None] is [undefined]. *)
Definition jsnum (v : option float) : float :=
  match v with Some x => x | None => nan end.

(** [===] between two values of type [number | undefined]. *)
Definition strict_eq (a b : option float) : bool :=
  match a, b with
  | Some x, Some y => PrimFloat.eqb x y
  | None, None => true
  | _, _ => false
  end.

(* ------------------------------------------------------------------ *)
(** ** Instructions (the second [OpCode] enum of VirtualMachine.ts) *)

Inductive OpCode :=
| HALT | LIT | LOAD | STORE | LOAD64 | STORE64 | GLOAD | GSTORE | CALL | RET
| JMP | JZ | ADD | SUB | MUL | DIV | MOD | EQ | NEQ | LT | GT | LE | GE
| PRINT | SCANF | MALLOC | FREE | P_PUSH | L_IND | S_IND | L_IND64 | S_IND64
| FRAME | ITOF | POP | DUP | SIN | COS | TAN | SQRT | POW | ABS.

(** [arg?: number | string] *)
Inductive Arg := ANum (x : float) | AStr (s : string).

Record Instruction := mkInstr { op : OpCode; arg : option Arg }.

(** Host primitives the VM calls and [PrimFloat] does not define. *)
Record Host := {
  num_of_string : string -> float;      (* Number(s) *)
  num_to_string : float -> string;      (* `${x}` *)
  js_mod : float -> float -> float;     (* a % b *)
  js_sin : float -> float;
  js_cos : float -> float;
  js_tan : float -> float;
  js_pow : float -> float -> float;
  f32_byte : float -> nat -> Z;         (* byte i of setFloat32(_, v, true) *)
  f32_decode : list Z -> float;         (* getFloat32(_, true) on 4 bytes *)
  f64_byte : float -> nat -> Z;         (* byte i of setFloat64(_, v, true) *)
  f64_decode : list Z -> float;         (* getFloat64(_, true) on 8 bytes *)
  js_parseInt : string -> float;
  js_parseFloat : string -> float;
  fmt_d : float -> string;              (* Math.floor(v).toString() *)
  fmt_f : float -> Z -> string;         (* v.toFixed(p), 0 <= p <= 100 *)
  fmt_x : float -> string;              (* Math.floor(v).toString(16) *)
  fmt_c : float -> string               (* String.fromCharCode(Math.floor(v)) *)
}.

(** [Number(x)] on an instruction argument. *)
Definition Number (h : Host) (a : option Arg) : float :=
  match a with
  | Some (ANum x) => x
  | Some (AStr s) => num_of_string h s
  | None => nan
  end.

(** [Number(instr.arg || 0)]: [undefined], [0], [NaN] and the empty string are falsy. *)
Definition Number_or0 (h : Host) (a : option Arg) : float :=
  match a with
  | Some (ANum x) =>
      if PrimFloat.eqb x 0 || negb (PrimFloat.eqb x x) then 0%float else x
  | Some (AStr EmptyString) | None => 0%float
  | Some (AStr s) => num_of_string h s
  end.

(* ------------------------------------------------------------------ *)
(** ** Process VM state *)

Inductive PState := RUNNING | TERMINATED | WAITING_INPUT.

Definition PState_eqb (a b : PState) : bool :=
  match a, b with
  | RUNNING, RUNNING | TERMINATED, TERMINATED
  | WAITING_INPUT, WAITING_INPUT => true
  | _, _ => false
  end.

Record ScanContext := mkScan { sc_fmt : string; sc_args : list (option float) }.

(** The fields of a [ProcessVM].  [memory] is the 64 KiB [Uint8Array] as a
    byte function; [stack] lists the JS array from its top (last element)
    down; [stdout] is kept outside, in [World]. *)
Record VM := mkVM {
  pid : float;
  memory : Z -> Z;
  stack : list float;
  pc : float;
  fp : float;
  heapPointer : float;
  state : PState;
  code : list Instruction;
  dataSegmentSize : Z;
  scanContext : option ScanContext
}.

(** The VM together with everything it has written to its stdout sink. *)
Record World := mkWorld { vm : VM; out : list string }.

Definition MEM_SIZE : Z := 65536.

Definition set_stack (s : list float) (m : VM) : VM :=
  mkVM (pid m) (memory m) s (pc m) (fp m) (heapPointer m) (state m) (code m)
       (dataSegmentSize m) (scanContext m).
Definition set_pc (p : float) (m : VM) : VM :=
  mkVM (pid m) (memory m) (stack m) p (fp m) (heapPointer m) (state m) (code m)
       (dataSegmentSize m) (scanContext m).
Definition set_heapPointer (hp : float) (m : VM) : VM :=
  mkVM (pid m) (memory m) (stack m) (pc m) (fp m) hp (state m) (code m)
       (dataSegmentSize m) (scanContext m).
Definition set_state (st : PState) (m : VM) : VM :=
  mkVM (pid m) (memory m) (stack m) (pc m) (fp m) (heapPointer m) st (code m)
       (dataSegmentSize m) (scanContext m).
Definition set_memory (mem : Z -> Z) (m : VM) : VM :=
  mkVM (pid m) mem (stack m) (pc m) (fp m) (heapPointer m) (state m) (code m)
       (dataSegmentSize m) (scanContext m).
Definition set_scanContext (c : option ScanContext) (m : VM) : VM :=
  mkVM (pid m) (memory m) (stack m) (pc m) (fp m) (heapPointer m) (state m)
       (code m) (dataSegmentSize m) c.

(* ------------------------------------------------------------------ *)
(** ** A state and exception monad: a JS method that may [throw] *)

Inductive Result (A : Type) := Ok (a : A) | Throw (msg : string).
Arguments Ok {A} a.
Arguments Throw {A} msg.

(** Mutations made before a [throw] persist: the world is returned on
    both paths. *)
Definition M (A : Type) := World -> Result A * World.

Definition ret {A} (a : A) : M A := fun w => (Ok a, w).
Definition bind {A B} (m : M A) (k : A -> M B) : M B :=
  fun w => match m w with
           | (Ok a, w') => k a w'
           | (Throw e, w') => (Throw e, w')
           end.
Definition throw {A} (msg : string) : M A := fun w => (Throw msg, w).
Definition gets {A} (f : VM -> A) : M A := fun w => (Ok (f (vm w)), w).
Definition modify (f : VM -> VM) : M unit :=
  fun w => (Ok tt, mkWorld (f (vm w)) (out w)).
Definition write_out (s : string) : M unit :=
  fun w => (Ok tt, mkWorld (vm w) (out w ++ [s])).

Declare Scope vm_scope.
Notation "x <- m ;; k" := (bind m (fun x => k))
  (at level 100, m at next level, right associativity) : vm_scope.
Notation "m ;; k" := (bind m (fun _ => k))
  (at level 100, right associativity) : vm_scope.
Open Scope vm_scope.

(** [this.stack.pop()]: [undefined] on an empty array. *)
Definition pop : M (option float) :=
  fun w => match stack (vm w) with
           | [] => (Ok None, w)
           | x :: s => (Ok (Some x), mkWorld (set_stack s (vm w)) (out w))
           end.

Definition push (x : float) : M unit := modify (fun m => set_stack (x :: stack m) m).

Fixpoint pop_n (n : nat) : M (list (option float)) :=
  match n with
  | O => ret []
  | S n' => x <- pop ;; xs <- pop_n n' ;; ret (x :: xs)
  end.

(** Number of iterations of [for (let i = 0; i < n; i++)] for a finite [n]
    (an infinite [n] would not terminate in JS). *)
Definition iter_count (n : float) : nat :=
  if PrimFloat.ltb 0 n then Z.to_nat (Num.trunc (Num.ceil n)) else O.

(* ------------------------------------------------------------------ *)
(** ** Memory access *)

Definition upd (mem : Z -> Z) (i v : Z) : Z -> Z :=
  fun j => if j =? i then v else mem j.

Fixpoint write_bytes (mem : Z -> Z) (base : Z) (bytes : nat -> Z) (n : nat) : Z -> Z :=
  match n with
  | O => mem
  | S k => upd (write_bytes mem base bytes k) (base + Z.of_nat k) (bytes k)
  end.

Definition read_bytes (mem : Z -> Z) (base : Z) (n : nat) : list Z :=
  map (fun k => mem (base + Z.of_nat k)) (seq 0 n).

Section Memory.
Variable h : Host.

Definition setMemory (addr val : float) : M unit :=
  if PrimFloat.ltb addr 0 || PrimFloat.leb (Num.of_Z (MEM_SIZE - 4)) addr
  then throw ("Segfault: Write " ++ num_to_string h addr)%string
  else modify (fun m => set_memory (write_bytes (memory m) (Num.trunc addr) (f32_byte h val) 4) m).

Definition setMemory64 (addr val : float) : M unit :=
  if PrimFloat.ltb addr 0 || PrimFloat.leb (Num.of_Z (MEM_SIZE - 8)) addr
  then throw ("Segfault: Write " ++ num_to_string h addr)%string
  else modify (fun m => set_memory (write_bytes (memory m) (Num.trunc addr) (f64_byte h val) 8) m).

(** [this.memory[addr] = val]: a [Uint8Array] store (ToUint8); a
    non-integral key is not an element and stores nothing. *)
Definition setMemoryByte (addr : float) (val : Z) : M unit :=
  if PrimFloat.ltb addr 0 || PrimFloat.leb (Num.of_Z MEM_SIZE) addr
  then throw ("Segfault: Write Byte " ++ num_to_string h addr)%string
  else match Num.to_int addr with
       | Some i => modify (fun m => set_memory (upd (memory m) i (val mod 256)) m)
       | None => ret tt
       end.

Definition getMemory (addr : float) : M float :=
  if PrimFloat.ltb addr 0 || PrimFloat.leb (Num.of_Z (MEM_SIZE - 4)) addr
  then throw ("Segfault: Read " ++ num_to_string h addr)%string
  else gets (fun m => f32_decode h (read_bytes (memory m) (Num.trunc addr) 4)).

Definition getMemory64 (addr : float) : M float :=
  if PrimFloat.ltb addr 0 || PrimFloat.leb (Num.of_Z (MEM_SIZE - 8)) addr
  then throw ("Segfault: Read " ++ num_to_string h addr)%string
  else gets (fun m => f64_decode h (read_bytes (memory m) (Num.trunc addr) 8)).

End Memory.

(* ------------------------------------------------------------------ *)
(** ** Strings read from memory and [printf] formatting *)

(** [this.memory[i]]: [undefined] off the integer indices of the array. *)
Definition mem_index (mem : Z -> Z) (i : float) : option Z :=
  match Num.to_int i with
  | Some z => if (0 <=? z) && (z <? MEM_SIZE) then Some (mem z) else None
  | None => None
  end.

(** [String.fromCharCode(c)] for a byte, and for [undefined] ("\0"). *)
Definition char_of (c : option Z) : ascii :=
  match c with Some b => ascii_of_nat (Z.to_nat b) | None => Ascii.zero end.

Fixpoint read_loop (mem : Z -> Z) (i : float) (fuel : nat) : string :=
  match fuel with
  | O => EmptyString
  | S f =>
      if PrimFloat.ltb i (Num.of_Z MEM_SIZE) then
        match mem_index mem i with
        | Some 0 => EmptyString
        | c => String (char_of c) (read_loop mem (i + 1)%float f)
        end
      else EmptyString
  end.

(** [readString(addr)]: the loop runs at most [65536 - addr] times; the fuel
    is exact for every finite [addr] with [|addr| < 2^53]. *)
Definition readString (mem : Z -> Z) (addr : float) : string :=
  read_loop mem addr (S (Z.to_nat (MEM_SIZE - Num.trunc addr))).

Definition is_digit (c : ascii) : bool :=
  let n := nat_of_ascii c in (48 <=? n)%nat && (n <=? 57)%nat.

(** [/[-+ #0-9.]/.test(c)] *)
Definition is_spec_char (c : ascii) : bool :=
  is_digit c || (c =? "-")%char || (c =? "+")%char || (c =? " ")%char
  || (c =? "#")%char || (c =? ".")%char.

Fixpoint digits_value (acc : Z) (s : string) : Z * string :=
  match s with
  | String c s' =>
      if is_digit c then digits_value (acc * 10 + Z.of_nat (nat_of_ascii c - 48)) s'
      else (acc, s)
  | EmptyString => (acc, s)
  end.

(** [spec.match(/\.(\d+)/)] followed by [parseInt] of the group. *)
Fixpoint precision_of (s : string) : option Z :=
  match s with
  | String "."%char ((String d _) as rest) =>
      if is_digit d then Some (fst (digits_value 0 rest)) else precision_of rest
  | String _ rest => precision_of rest
  | EmptyString => None
  end.

Section Print.
Variable h : Host.

(** One [%...] conversion of [PRINT]. *)
Definition print_part (spec : string) (type : ascii) (val : option float) : M string :=
  match val with
  | None => ret ("%{spec}" ++ String type EmptyString)%string
  | Some v =>
      let precision := match precision_of spec with Some p => p | None => 6 end in
      if (type =? "d")%char then ret (fmt_d h v)
      else if (type =? "f")%char then
        if (0 <=? precision) && (precision <=? 100) then ret (fmt_f h v precision)
        else throw "toFixed() digits argument must be between 0 and 100"%string
      else if (type =? "x")%char then ret (fmt_x h v)
      else if (type =? "c")%char then ret (fmt_c h v)
      else if (type =? "s")%char then gets (fun m => readString (memory m) v)
      else ret ("%" ++ spec ++ String type EmptyString)%string
  end.

Fixpoint take_spec (s : string) : string * string :=
  match s with
  | String c s' =>
      if is_spec_char c then let (sp, r) := take_spec s' in (String c sp, r)
      else (EmptyString, s)
  | EmptyString => (EmptyString, EmptyString)
  end.

(** [args[argIndex]]: [undefined] past the end. *)
Definition arg_at (args : list (option float)) (k : nat) : option float :=
  match nth_error args k with Some v => v | None => None end.

(** The [while (i < fmt.length)] loop of [PRINT]; [fuel] bounds the
    characters left. *)
Fixpoint print_loop (fuel : nat) (fmt : string) (args : list (option float))
    (argIndex : nat) (output : string) : M string :=
  match fuel with
  | O => ret output
  | S f =>
      match fmt with
      | EmptyString => ret output
      | String "%"%char rest =>
          let (spec, rest') := take_spec rest in
          match rest' with
          | EmptyString => ret output
          | String type rest'' =>
              part <- print_part spec type (arg_at args argIndex) ;;
              print_loop f rest'' args (S argIndex) (output ++ part)%string
          end
      | String c rest => print_loop f rest args argIndex (output ++ String c EmptyString)%string
      end
  end.

End Print.

(* ------------------------------------------------------------------ *)
(** ** [executeInstruction] and [step] *)

Section Exec.
Variable h : Host.

Definition bool_num (b : bool) : float := if b then 1%float else 0%float.

Definition binop (f : float -> float -> float) : M unit :=
  b <- pop ;; a <- pop ;; push (f (jsnum a) (jsnum b)).

Definition unop (f : float -> float) : M unit :=
  x <- pop ;; push (f (jsnum x)).

(** [executeInstruction(instr)]; [None] is an [undefined] instruction
    ([this.code[this.pc++]] off the array), whose [.op] throws. *)
Definition executeInstruction (oi : option Instruction) : M unit :=
  match oi with
  | None => throw "Cannot read properties of undefined (reading 'op')"%string
  | Some instr =>
  match op instr with
  | HALT => modify (set_state TERMINATED)
  | LIT => push (Number h (arg instr))
  | POP => _ <- pop ;; ret tt
  | ADD => binop PrimFloat.add
  | SUB => binop PrimFloat.sub
  | MUL => binop PrimFloat.mul
  | DIV =>
      b <- pop ;; a <- pop ;;
      if strict_eq b (Some 0%float) then throw "Divide by zero"%string
      else push (PrimFloat.div (jsnum a) (jsnum b))
  | MOD => binop (js_mod h)
  | EQ => x <- pop ;; y <- pop ;; push (bool_num (strict_eq x y))
  | NEQ => x <- pop ;; y <- pop ;; push (bool_num (negb (strict_eq x y)))
  | LT => b <- pop ;; a <- pop ;; push (bool_num (PrimFloat.ltb (jsnum a) (jsnum b)))
  | GT => b <- pop ;; a <- pop ;; push (bool_num (PrimFloat.ltb (jsnum b) (jsnum a)))
  | JMP => modify (set_pc (Number h (arg instr)))
  | JZ =>
      v <- pop ;;
      if strict_eq v (Some 0%float) then modify (set_pc (Number h (arg instr))) else ret tt
  | PRINT =>
      fmtAddr <- pop ;;
      fmt <- gets (fun m => readString (memory m) (jsnum fmtAddr)) ;;
      args <- pop_n (iter_count (Number_or0 h (arg instr))) ;;
      output <- print_loop h (S (String.length fmt)) fmt (rev args) 0 EmptyString ;;
      write_out output
  | SCANF =>
      fmtAddr <- pop ;;
      fmt <- gets (fun m => readString (memory m) (jsnum fmtAddr)) ;;
      args <- pop_n (iter_count (Number_or0 h (arg instr))) ;;
      modify (set_state WAITING_INPUT) ;;
      modify (set_scanContext (Some (mkScan fmt (rev args))))
  | STORE =>
      v <- pop ;; f <- gets fp ;; setMemory h (f + Number h (arg instr))%float (jsnum v)
  | LOAD =>
      f <- gets fp ;; v <- getMemory h (f + Number h (arg instr))%float ;; push v
  | STORE64 =>
      v <- pop ;; f <- gets fp ;; setMemory64 h (f + Number h (arg instr))%float (jsnum v)
  | LOAD64 =>
      f <- gets fp ;; v <- getMemory64 h (f + Number h (arg instr))%float ;; push v
  | P_PUSH => f <- gets fp ;; push (f + Number h (arg instr))%float
  | S_IND => v <- pop ;; a <- pop ;; setMemory h (jsnum a) (jsnum v)
  | L_IND => a <- pop ;; v <- getMemory h (jsnum a) ;; push v
  | S_IND64 => v <- pop ;; a <- pop ;; setMemory64 h (jsnum a) (jsnum v)
  | L_IND64 => a <- pop ;; v <- getMemory64 h (jsnum a) ;; push v
  | MALLOC =>
      size <- pop ;; ptr <- gets heapPointer ;;
      modify (set_heapPointer (ptr + jsnum size)%float) ;; push ptr
  | SIN => unop (js_sin h)
  | COS => unop (js_cos h)
  | TAN => unop (js_tan h)
  | SQRT => unop PrimFloat.sqrt
  | ABS => unop PrimFloat.abs
  | POW => e <- pop ;; b <- pop ;; push (js_pow h (jsnum b) (jsnum e))
  | GLOAD | GSTORE | CALL | RET | LE | GE | FREE | FRAME | ITOF | DUP => ret tt
  end
  end.

(** [this.code[this.pc]] *)
Definition fetch (c : list Instruction) (p : float) : option Instruction :=
  match Num.to_int p with
  | Some z => if 0 <=? z then nth_error c (Z.to_nat z) else None
  | None => None
  end.

Definition nl : string := String (ascii_of_nat 10) EmptyString.

Definition segfault_message (e : string) : string :=
  (nl ++ "Segmentation Fault (Core Dumped): " ++ e ++ nl)%string.

Definition is_stopped (st : PState) : bool :=
  match st with TERMINATED | WAITING_INPUT => true | RUNNING => false end.

(** The [for (let i = 0; i < cycles; i++)] loop of [step]. *)
Fixpoint step_loop (n : nat) (w : World) : bool * World :=
  match n with
  | O => (true, w)
  | S n' =>
      let m := vm w in
      if PrimFloat.leb (Num.of_Z (Z.of_nat (List.length (code m)))) (pc m) then
        (false, mkWorld (set_state TERMINATED m) (out w))
      else
        let instr := fetch (code m) (pc m) in
        let w1 := mkWorld (set_pc (pc m + 1)%float m) (out w) in
        match executeInstruction instr w1 with
        | (Throw e, w2) =>
            (false, mkWorld (set_state TERMINATED (vm w2)) (out w2 ++ [segfault_message e]))
        | (Ok _, w2) =>
            if is_stopped (state (vm w2)) then (false, w2) else step_loop n' w2
        end
  end.

(** [step(cycles)]; callers pass a non-negative integer chunk (default 100). *)
Definition step (cycles : nat) (w : World) : bool * World :=
  if is_stopped (state (vm w)) then (false, w) else step_loop cycles w.

End Exec.

(** [Math.ceil((this.dataSegmentSize + 1024) / 4) * 4] *)
Definition initial_heapPointer (dss : Z) : float :=
  (Num.ceil ((Num.of_Z dss + 1024) / 4) * 4)%float.


(** [new ProcessVM(pid, code, data, stdout)]: [memory.set(data, 0)] throws a
    [RangeError] when the data does not fit in the 64 KiB. *)
Definition new_ProcessVM (p : float) (c : list Instruction) (data : list Z) : Result VM :=
  if (Z.of_nat (List.length data) >? MEM_SIZE) then Throw "offset is out of bounds"%string
  else
    let mem := fun i => if (0 <=? i) && (i <? Z.of_nat (List.length data))
                        then nth (Z.to_nat i) data 0 else 0 in
    let dss := Z.of_nat (List.length data) in
    Ok (mkVM p mem [] 0%float 60000%float (initial_heapPointer dss) RUNNING c dss None).

(** A concrete host, used to run the model on examples. *)
Definition sample_host : Host := {|
  num_of_string := fun _ => nan;
  num_to_string := fun _ => "n"%string;
  js_mod := fun _ _ => nan;
  js_sin := fun x => x; js_cos := fun x => x; js_tan := fun x => x;
  js_pow := fun _ _ => nan;
  f32_byte := fun _ _ => 0; f32_decode := fun _ => 0%float;
  f64_byte := fun _ _ => 0; f64_decode := fun _ => 0%float;
  js_parseInt := fun _ => 0%float; js_parseFloat := fun _ => 0%float;
  fmt_d := fun _ => "d"%string; fmt_f := fun _ _ => "f"%string;
  fmt_x := fun _ => "x"%string; fmt_c := fun _ => "c"%string
|}.

Definition empty_mem : Z -> Z := fun _ => 0.

(** A running VM with the given code and stack, fresh memory. *)
Definition vm_with (c : list Instruction) (s : list float) : VM :=
  mkVM 100%float empty_mem s 0%float 60000%float 1024%float RUNNING c 0 None.

(* ------------------------------------------------------------------ *)
(** ** [resolveInput] *)

(** JS [\s] (WhiteSpace and LineTerminator) on 8-bit characters. *)
Definition is_ws (c : ascii) : bool :=
  let n := nat_of_ascii c in
  ((9 <=? n) && (n <=? 13))%nat || (n =? 32)%nat || (n =? 160)%nat.

Fixpoint ltrim (s : string) : string :=
  match s with
  | String c s' => if is_ws c then ltrim s' else s
  | EmptyString => EmptyString
  end.

Fixpoint drop_ws (l : list ascii) : list ascii :=
  match l with
  | c :: l' => if is_ws c then drop_ws l' else l
  | [] => []
  end.

(** [s.trim()] *)
Definition trim (s : string) : string :=
  string_of_list_ascii (rev (drop_ws (rev (list_ascii_of_string (ltrim s))))).

(** [s.split(/\s+/)]: each maximal run of whitespace separates two pieces;
    the empty string gives one empty piece. *)
Fixpoint split_ws_aux (s : string) (cur : string) (in_run : bool) : list string :=
  match s with
  | EmptyString => [cur]
  | String c s' =>
      if is_ws c then
        if in_run then split_ws_aux s' cur true
        else cur :: split_ws_aux s' EmptyString true
      else split_ws_aux s' (cur ++ String c EmptyString)%string false
  end.

Definition split_ws (s : string) : list string := split_ws_aux s EmptyString false.

Fixpoint skip_while (p : ascii -> bool) (s : string) : string :=
  match s with
  | String c s' => if p c then skip_while p s' else s
  | EmptyString => EmptyString
  end.

Definition is_flag (c : ascii) : bool :=
  (c =? " ")%char || (c =? "+")%char || (c =? "-")%char || (c =? "#")%char
  || (c =? "0")%char.

(** After a [%]: flags, width, [.precision], the [l] modifier, then the
    type character ([None] past the end) and what follows it. *)
Definition parse_conv (s : string) : bool * option ascii * string :=
  let s := skip_while is_flag s in
  let s := skip_while is_digit s in
  let s := match s with
           | String "."%char s' => skip_while is_digit s'
           | _ => s
           end in
  let (lmod, s) := match s with
                   | String "l"%char s' => (true, s')
                   | _ => (false, s)
                   end in
  match s with
  | String t s' => (lmod, Some t, s')
  | EmptyString => (lmod, None, EmptyString)
  end.

(** [x || 0] on a number. *)
Definition or0 (x : float) : float :=
  if PrimFloat.eqb x 0 || negb (PrimFloat.eqb x x) then 0%float else x.

(** [raw.charCodeAt(0)] *)
Definition charCodeAt0 (raw : string) : float :=
  match raw with
  | String c _ => Num.of_Z (Z.of_nat (nat_of_ascii c))
  | EmptyString => nan
  end.

Section Resolve.
Variable h : Host.

(** [for (let k = 0; k < raw.length; k++) setMemoryByte(addr + k, ...)] *)
Fixpoint write_chars (addr : float) (k : nat) (raw : string) : M unit :=
  match raw with
  | EmptyString => ret tt
  | String c raw' =>
      setMemoryByte h (addr + Num.of_Z (Z.of_nat k))%float (Z.of_nat (nat_of_ascii c)) ;;
      write_chars addr (S k) raw'
  end.

(** The writes of one conversion of type [type] at [addr] from token [raw]. *)
Definition scan_write (lmod : bool) (type : option ascii) (addr : float) (raw : string) : M unit :=
  match type with
  | Some t =>
      if (t =? "d")%char then setMemory h addr (or0 (js_parseInt h raw))
      else if (t =? "f")%char then
        let val := or0 (js_parseFloat h raw) in
        if lmod then setMemory64 h addr val else setMemory h addr val
      else if (t =? "c")%char then setMemory h addr (charCodeAt0 raw)
      else if (t =? "s")%char then
        write_chars addr 0 raw ;;
        setMemoryByte h (addr + Num.of_Z (Z.of_nat (String.length raw)))%float 0
      else ret tt
  | None => ret tt
  end.

(** The [for (let i = 0; i < fmt.length; i++)] loop; [typeIdx] and
    [inputIdx] are always equal, [j] is both. *)
Fixpoint scan_loop (fuel : nat) (fmt : string) (args : list (option float))
    (inputs : list string) (j : nat) : M unit :=
  match fuel with
  | O => ret tt
  | S f =>
      match fmt with
      | EmptyString => ret tt
      | String c rest =>
          if (c =? "%")%char then
            let '(lmod, type, rest') := parse_conv rest in
            if (List.length inputs <=? j)%nat || (List.length args <=? j)%nat then ret tt
            else
              scan_write lmod type (jsnum (arg_at args j)) (nth j inputs EmptyString) ;;
              scan_loop f rest' args inputs (S j)
          else scan_loop f rest args inputs j
      end
  end.

(** [resolveInput(input)] *)
Definition resolveInput (input : string) : M unit :=
  m <- gets (fun m => m) ;;
  match state m, scanContext m with
  | WAITING_INPUT, Some ctx =>
      scan_loop (S (String.length (sc_fmt ctx))) (sc_fmt ctx) (sc_args ctx)
                (split_ws (trim input)) 0 ;;
      modify (set_scanContext None) ;;
      modify (set_state RUNNING)
  | _, _ => ret tt
  end.

End Resolve.

(** The conversions of a scan format, in order, as the loop of
    [resolveInput] reads them: ([l] modifier, type character). *)
Fixpoint conversions_fuel (fuel : nat) (fmt : string) : list (bool * option ascii) :=
  match fuel with
  | O => []
  | S f =>
      match fmt with
      | EmptyString => []
      | String c rest =>
          if (c =? "%")%char then
            let '(lmod, type, rest') := parse_conv rest in
            (lmod, type) :: conversions_fuel f rest'
          else conversions_fuel f rest
      end
  end.

Definition conversions (fmt : string) : list (bool * option ascii) :=
  conversions_fuel (S (String.length fmt)) fmt.

(** The bytes one conversion may write: 4 at the address for [%d], [%c],
    [%f]; 8 for [%lf]; the token and its NUL for [%s]; none otherwise. *)
Definition footprint (cv : bool * option ascii) (addr : float) (raw : string) (b : Z) : Prop :=
  match snd cv with
  | Some t =>
      if (t =? "d")%char then Num.trunc addr <= b < Num.trunc addr + 4
      else if (t =? "f")%char then
        (if fst cv then Num.trunc addr <= b < Num.trunc addr + 8
         else Num.trunc addr <= b < Num.trunc addr + 4)
      else if (t =? "c")%char then Num.trunc addr <= b < Num.trunc addr + 4
      else if (t =? "s")%char then
        exists k, (k <= String.length raw)%nat /\
                  Num.to_int (addr + Num.of_Z (Z.of_nat k))%float = Some b
      else False
  | None => False
  end.

(* ------------------------------------------------------------------ *)
(** ** Compiler: the preprocessor *)

Definition NL : ascii := "010"%char.

(** [s.split('\n')] *)
Fixpoint split_nl (s : string) : list string :=
  match s with
  | EmptyString => [EmptyString]
  | String c s' =>
      if (c =? NL)%char then EmptyString :: split_nl s'
      else match split_nl s' with
           | x :: xs => String c x :: xs
           | [] => [String c EmptyString]
           end
  end.

(** [lines.join(sep)] *)
Fixpoint join (sep : string) (l : list string) : string :=
  match l with
  | [] => EmptyString
  | [x] => x
  | x :: xs => (x ++ sep ++ join sep xs)%string
  end.

(** [this.macros], a [Map<string, string>] in insertion order. *)
Definition Macros := list (string * string).

Definition macros_has (ms : Macros) (k : option string) : bool :=
  match k with
  | Some k => existsb (fun kv => String.eqb (fst kv) k) ms
  | None => false
  end.

Fixpoint macros_set (ms : Macros) (k v : string) : Macros :=
  match ms with
  | [] => [(k, v)]
  | (k', v') :: ms' => if String.eqb k' k then (k, v) :: ms' else (k', v') :: macros_set ms' k v
  end.

(** [s.startsWith('#')] *)
Definition startsWith_hash (s : string) : bool :=
  match s with String c _ => (c =? "#")%char | EmptyString => false end.

(** [s.substring(1)] *)
Definition substring1 (s : string) : string :=
  match s with String _ s' => s' | EmptyString => EmptyString end.

Definition is_directive (line : string) : bool := startsWith_hash (trim line).

(** [stack.every(x => x)], the stack listed from its top. *)
Definition isEmitting (stack : list bool) : bool := forallb (fun x => x) stack.

(** The loop state of [preprocess]: output lines (reversed), the
    conditional stack (top first) and the macros. *)
Record PPState := mkPP { pp_out : list string; pp_stack : list bool; pp_macros : Macros }.

(** The body of [for (let i = 0; i < lines.length; i++)]. *)
Definition pp_line (st : PPState) (line : string) : PPState :=
  let '(mkPP outl stack ms) := st in
  let trimmed := trim line in
  if startsWith_hash trimmed then
      let parts := split_ws (substring1 trimmed) in
      let cmd := nth 0 parts EmptyString in
      let arg1 := nth_error parts 1 in
      let argRest := join " " (skipn 2 parts) in
      let outl := EmptyString :: outl in
      if String.eqb cmd "define" then
        if isEmitting stack then
          match arg1 with
          | Some (String _ _ as a) =>
              mkPP outl stack
                (macros_set ms a (if String.eqb argRest EmptyString then "1"%string else argRest))
          | _ => mkPP outl stack ms
          end
        else mkPP outl stack ms
      else if String.eqb cmd "ifdef" then
        mkPP outl ((if isEmitting stack then macros_has ms arg1 else false) :: stack) ms
      else if String.eqb cmd "ifndef" then
        mkPP outl ((if isEmitting stack then negb (macros_has ms arg1) else false) :: stack) ms
      else if String.eqb cmd "endif" then
        mkPP outl (tl stack) ms
      else mkPP outl stack ms
  else mkPP ((if isEmitting stack then line else EmptyString) :: outl) stack ms.

(** [preprocess(source)], from the macros of the compiler; returns the
    text and the macros it recorded. *)
Definition preprocess (ms : Macros) (source : string) : Result (string * Macros) :=
  let st := fold_left pp_line (split_nl source) (mkPP [] [] ms) in
  match pp_stack st with
  | _ :: _ => Throw "Unterminated #ifdef/#ifndef block"%string
  | [] => Ok (join (String NL EmptyString) (rev (pp_out st)), pp_macros st)
  end.

(* ------------------------------------------------------------------ *)
(** ** Compiler: state, lexer, macro expansion, [compile] *)

Inductive TokType := KEYWORD | ID | NUMBER | STRING | CHAR | SYMBOL | EOF.

Definition TokType_eqb (a b : TokType) : bool :=
  match a, b with
  | KEYWORD, KEYWORD | ID, ID | NUMBER, NUMBER | STRING, STRING | CHAR, CHAR
  | SYMBOL, SYMBOL | EOF, EOF => true
  | _, _ => false
  end.

Record Token := mkTok { ttype : TokType; value : string; tline : Z }.

Record SymbolInfo := mkSym {
  s_offset : float; s_type : string; s_isArray : bool;
  s_arraySize : option float; s_elementSize : float }.

Inductive ControlContext :=
| LoopCtx (breakJumps : list nat) (continueTarget : option nat) (pendingContinues : list nat)
| SwitchCtx (breakJumps : list nat).

(** The fields of a [Compiler]. *)
Record CState := mkC {
  tokens : list Token;
  pos : nat;
  instructions : list Instruction;
  locals : list (string * SymbolInfo);
  localOffset : float;
  dataSegment : list Z;
  macros : Macros;
  warnings : list string;
  controlStack : list ControlContext
}.

Fixpoint nat_to_decimal_aux (fuel n : nat) (acc : string) : string :=
  match fuel with
  | O => acc
  | S f =>
      let d := String (ascii_of_nat (48 + n mod 10)) acc in
      if (n <? 10)%nat then d else nat_to_decimal_aux f (n / 10) d
  end.

(** The decimal text of a line number ([`${line}`]). *)
Definition Z_to_decimal (z : Z) : string :=
  let n := Z.to_nat (Z.abs z) in
  let t := nat_to_decimal_aux (S n) n EmptyString in
  if z <? 0 then ("-" ++ t)%string else t.

(** The message of [this.error(msg)]: [Line ${t?.line || '?'}: msg] with
    [t] the current token, or else the last one. *)
Definition error_message (st : CState) (msg : string) : string :=
  let t := match nth_error (tokens st) (pos st) with
           | Some t => Some t
           | None => last (map Some (tokens st)) None
           end in
  let l := match t with
           | Some t => if tline t =? 0 then "?"%string else Z_to_decimal (tline t)
           | None => "?"%string
           end in
  ("Line " ++ l ++ ": " ++ msg)%string.

(** [/[a-zA-Z_]/] and [/[0-9.]/] *)
Definition isAlpha (c : ascii) : bool :=
  let n := nat_of_ascii c in
  ((65 <=? n) && (n <=? 90))%nat || ((97 <=? n) && (n <=? 122))%nat || (n =? 95)%nat.
Definition isNum (c : ascii) : bool := is_digit c || (c =? ".")%char.

Definition keywords : list string :=
  ["int"; "void"; "char"; "float"; "double"; "return"; "if"; "else"; "while"; "for";
   "do"; "switch"; "case"; "default"; "break"; "continue"; "printf"; "scanf";
   "malloc"; "free"; "sin"; "cos"; "tan"; "sqrt"; "pow"; "abs"]%string.

Definition single_symbols : list ascii :=
  ["+"; "-"; "*"; "/"; "%"; "="; "("; ")"; "{"; "}"; ";"; ","; "<"; ">"; "&";
   "["; "]"; ":"]%char.

Definition double_symbols : list string := ["=="; "!="; "<="; ">="]%string.

(** The escapes of string and char literals. *)
Definition escape (n : ascii) : ascii :=
  if (n =? "n")%char then "010"%char
  else if (n =? "t")%char then "009"%char
  else if (n =? "r")%char then "013"%char
  else if (n =? "0")%char then "000"%char
  else n.

(** A string literal after its opening quote: its value and the rest. *)
Fixpoint lex_string (s : string) (acc : string) : string * string :=
  match s with
  | EmptyString => (acc, EmptyString)
  | String c r =>
      if (c =? "034")%char then (acc, r)
      else if (c =? "092")%char then
        match r with
        | EmptyString => (acc, EmptyString)
        | String n r' => lex_string r' (acc ++ String (escape n) EmptyString)%string
        end
      else lex_string r (acc ++ String c EmptyString)%string
  end.

(** A char literal after its opening quote. *)
Definition lex_char (st : CState) (s : string) : Result (string * string) :=
  let close v r :=
    match r with
    | String q r' => if (q =? "'")%char then Ok (String v EmptyString, r')
                     else Throw (error_message st "Expected closing single quote")
    | EmptyString => Throw (error_message st "Expected closing single quote")
    end in
  match s with
  | EmptyString => Throw (error_message st "Unexpected EOF in char literal")
  | String v r =>
      if (v =? "092")%char then
        match r with
        | EmptyString => Throw (error_message st "Unexpected EOF in char literal escape")
        | String n r' => close (escape n) r'
        end
      else close v r
  end.

Fixpoint take_while (p : ascii -> bool) (s : string) : string * string :=
  match s with
  | String c s' => if p c then let (w, r) := take_while p s' in (String c w, r) else (EmptyString, s)
  | EmptyString => (EmptyString, EmptyString)
  end.

Fixpoint skip_to_nl (s : string) : string :=
  match s with
  | String c s' => if (c =? NL)%char then s else skip_to_nl s'
  | EmptyString => EmptyString
  end.

(** The [while (i < source.length)] loop of [tokenizeString]; every round
    consumes at least one character, so [String.length source + 1] rounds
    suffice. *)
Fixpoint lex (st : CState) (fuel : nat) (s : string) (line : Z) (acc : list Token)
  : Result (list Token) :=
  match fuel with
  | O => Ok (rev acc)
  | S f =>
  match s with
  | EmptyString => Ok (rev acc)
  | String c s' =>
      if (c =? NL)%char then lex st f s' (line + 1) acc
      else if is_ws c then lex st f s' line acc
      else if (c =? "/")%char && (match s' with String "/"%char _ => true | _ => false end)
      then lex st f (skip_to_nl s) line acc
      else if (c =? "034")%char then
        let (v, r) := lex_string s' EmptyString in
        lex st f r line (mkTok STRING v line :: acc)
      else if (c =? "'")%char then
        match lex_char st s' with
        | Ok (v, r) => lex st f r line (mkTok CHAR v line :: acc)
        | Throw e => Throw e
        end
      else if isAlpha c then
        let (v, r) := take_while (fun x => isAlpha x || isNum x) s in
        lex st f r line
          (mkTok (if existsb (String.eqb v) keywords then KEYWORD else ID) v line :: acc)
      else if isNum c then
        let (v, r) := take_while isNum s in
        lex st f r line (mkTok NUMBER v line :: acc)
      else
        match s' with
        | String c2 s'' =>
            if existsb (String.eqb (String c (String c2 EmptyString))) double_symbols
            then lex st f s'' line (mkTok SYMBOL (String c (String c2 EmptyString)) line :: acc)
            else if existsb (Ascii.eqb c) single_symbols
            then lex st f s' line (mkTok SYMBOL (String c EmptyString) line :: acc)
            else lex st f s' line acc
        | EmptyString =>
            if existsb (Ascii.eqb c) single_symbols
            then lex st f s' line (mkTok SYMBOL (String c EmptyString) line :: acc)
            else lex st f s' line acc
        end
  end
  end.

(** [this.tokenizeString(source, startLine)]; [st] is the compiler state
    [this.error] reads. *)
Definition tokenizeString (st : CState) (source : string) (startLine : Z) : Result (list Token) :=
  lex st (S (String.length source)) source startLine [].

Definition macro_get (ms : Macros) (k : string) : option string :=
  match find (fun kv => String.eqb (fst kv) k) ms with
  | Some (_, v) => Some v
  | None => None
  end.

(** [expandMacros()] *)
Fixpoint expand (st : CState) (toks : list Token) : Result (list Token) :=
  match toks with
  | [] => Ok []
  | t :: ts =>
      match (match ttype t with ID => macro_get (macros st) (value t) | _ => None end) with
      | Some body =>
          match tokenizeString st body (tline t), expand st ts with
          | Ok e, Ok r => Ok (e ++ r)
          | Throw e, _ => Throw e
          | _, Throw e => Throw e
          end
      | None => match expand st ts with Ok r => Ok (t :: r) | Throw e => Throw e end
      end
  end.

Definition set_tokens (toks : list Token) (p : nat) (st : CState) : CState :=
  mkC toks p (instructions st) (locals st) (localOffset st) (dataSegment st)
      (macros st) (warnings st) (controlStack st).

Section Compile.
(** [this.parseFunction()], left abstract: the empty program never calls it. *)
Variable parseFunction : CState -> Result CState.

(** [while (this.peek().type !== 'EOF') this.parseFunction();]  The real
    [parseFunction] consumes a token first or throws, so [length tokens + 1]
    rounds suffice. *)
Fixpoint parse_functions (fuel : nat) (st : CState) : Result CState :=
  match fuel with
  | O => Ok st
  | S f =>
      match nth_error (tokens st) (pos st) with
      | None => Throw "Cannot read properties of undefined (reading 'type')"%string
      | Some t =>
          if TokType_eqb (ttype t) EOF then Ok st
          else match parseFunction st with
               | Ok st' => parse_functions f st'
               | Throw e => Throw e
               end
      end
  end.

(** [compile(source)] from the compiler's previous state [st0]: the
    bytecode, the data segment bytes and the warnings. *)
Definition compile (st0 : CState) (source : string)
  : Result (list Instruction * list Z * list string) :=
  let st := mkC (tokens st0) (pos st0) [] [] 0%float [] [] [] [] in
  match preprocess [] source with
  | Throw e => Throw e
  | Ok (pre, ms) =>
      let st := mkC (tokens st) (pos st) [] [] 0%float [] ms [] [] in
      match tokenizeString st pre 1 with
      | Throw e => Throw e
      | Ok toks =>
          let st := set_tokens toks (pos st) st in
          match expand st toks with
          | Throw e => Throw e
          | Ok toks' =>
              let eof := mkTok EOF "EOF" (last (map tline toks') 1) in
              let toks'' := toks' ++ [eof] in
              match parse_functions (S (List.length toks'')) (set_tokens toks'' 0 st) with
              | Throw e => Throw e
              | Ok st' => Ok (instructions st', dataSegment st', warnings st')
              end
          end
      end
  end.

End Compile.

(* ------------------------------------------------------------------ *)
(** ** Compiler: [parseEquality] *)

(** [this.emit(op, arg)] *)
Definition emit (o : OpCode) (a : option Arg) (st : CState) : CState :=
  mkC (tokens st) (pos st) (instructions st ++ [mkInstr o a]) (locals st) (localOffset st)
      (dataSegment st) (macros st) (warnings st) (controlStack st).

Definition advance (st : CState) : CState := set_tokens (tokens st) (S (pos st)) st.

(** [this.peek()] *)
Definition peek (st : CState) : option Token := nth_error (tokens st) (pos st).

Definition undefined_value : string :=
  "Cannot read properties of undefined (reading 'value')"%string.

Section Equality.
(** [this.parseRelational()], the next precedence level. *)
Variable parseRelational : CState -> Result CState.

(** The [while (['==', '!='].includes(this.peek().value))] loop of the
    current [parseEquality]; each round consumes its operator token, so
    [length tokens + 1] rounds suffice. *)
Fixpoint equality_loop (fuel : nat) (st : CState) : Result CState :=
  match fuel with
  | O => Ok st
  | S f =>
      match peek st with
      | None => Throw undefined_value
      | Some t =>
          if existsb (String.eqb (value t)) ["=="; "!="]%string then
            let op := value t in
            match parseRelational (advance st) with
            | Ok st2 =>
                equality_loop f (emit (if String.eqb op "==" then EQ else NEQ) None st2)
            | Throw e => Throw e
            end
          else Ok st
      end
  end.

(** [parseEquality()] *)
Definition parseEquality (st : CState) : Result CState :=
  match parseRelational st with
  | Ok st1 => equality_loop (S (List.length (tokens st1))) st1
  | Throw e => Throw e
  end.

(** The loop of the first [Compiler] class of the file, which emits [EQ]
    for each of [==], [!=], [<=] and [>=]. *)
Fixpoint equality_loop_old (fuel : nat) (st : CState) : Result CState :=
  match fuel with
  | O => Ok st
  | S f =>
      match peek st with
      | None => Throw undefined_value
      | Some t =>
          if existsb (String.eqb (value t)) ["=="; "!="; "<="; ">="]%string then
            match parseRelational (advance st) with
            | Ok st2 => equality_loop_old f (emit EQ None st2)
            | Throw e => Throw e
            end
          else Ok st
      end
  end.

Definition parseEquality_old (st : CState) : Result CState :=
  match parseRelational st with
  | Ok st1 => equality_loop_old (S (List.length (tokens st1))) st1
  | Throw e => Throw e
  end.

End Equality.

(** A stand-in for the lower precedence levels, used to run examples: one
    [NUMBER] token compiles to [LIT]. *)
Definition number_parser (st : CState) : Result CState :=
  match peek st with
  | Some t =>
      if TokType_eqb (ttype t) NUMBER
      then Ok (emit LIT (Some (AStr (value t))) (advance st))
      else Throw (error_message st "Expected NUMBER")
  | None => Throw undefined_value
  end.

Definition tokens_of (toks : list Token) : CState := mkC toks 0 [] [] 0%float [] [] [] [].

Definition sym (v : string) : Token := mkTok SYMBOL v 1.
Definition num (v : string) : Token := mkTok NUMBER v 1.
Definition eof_tok : Token := mkTok EOF "EOF" 1.

(* ------------------------------------------------------------------ *)
(** ** ProcessManager (the [part_000] version) *)

(** The [Process] records handed out by [getProcessList]. *)
Module Proc.
Record Process := mkProcess {
  id : float;
  pid : float;
  name : string;
  state : PState;
  memoryUsage : float;
  startTime : float;
  windowId : option string
}.
End Proc.

Module PM.
(** [interface ProcessEntry].  The VM is held by reference in the source;
    the snapshot only reads its [state], so the VM value is kept here. *)
Record ProcessEntry := mkEntry {
  vm : VM;
  name : string;
  startTime : float;
  memoryUsage : float;
  windowId : option string
}.

(** [processes] is a [Map<number, ProcessEntry>], kept as an association
    list in insertion order (the order [Map.entries()] visits).  The
    listeners are opaque callbacks; [notified] counts the [notify()] calls.
    The one listener of the code base ([TaskManager]) only reads. *)
Record ProcessManager := mkPM {
  processes : list (float * ProcessEntry);
  nextPid : float;
  notified : nat
}.

Definition notify (m : ProcessManager) : ProcessManager :=
  mkPM (processes m) (nextPid m) (S (notified m)).

Definition is_terminated (e : ProcessEntry) : bool :=
  PState_eqb (state (vm e)) TERMINATED.

(** The [for (const [pid, proc] of this.processes.entries())] loop of
    [cleanupTerminated]: deleting the entry being visited does not disturb
    a [Map] iteration, so every entry is visited once.  Returns the entries
    left and the [removed] flag. *)
Fixpoint sweep (l : list (float * ProcessEntry)) : list (float * ProcessEntry) * bool :=
  match l with
  | [] => ([], false)
  | (k, e) :: rest =>
      let '(kept, removed) := sweep rest in
      if is_terminated e then (kept, true) else ((k, e) :: kept, removed)
  end.

(** [cleanupTerminated()] *)
Definition cleanupTerminated (m : ProcessManager) : ProcessManager :=
  let '(kept, removed) := sweep (processes m) in
  let m1 := mkPM kept (nextPid m) (notified m) in
  if removed then notify m1 else m1.

Definition to_process (kv : float * ProcessEntry) : Proc.Process :=
  let '(k, e) := kv in
  Proc.mkProcess k k (name e) (state (vm e)) (memoryUsage e) (startTime e) (windowId e).

(** [getProcessList()]: the manager after the call and the returned array. *)
Definition getProcessList (m : ProcessManager) : ProcessManager * list Proc.Process :=
  let m1 := cleanupTerminated m in
  (m1, map to_process (processes m1)).

(** [killProcess(pid)] *)
Definition killProcess (k : float) (m : ProcessManager) : ProcessManager :=
  match find (fun kv => PrimFloat.eqb (fst kv) k) (processes m) with
  | Some _ =>
      notify (mkPM (filter (fun kv => negb (PrimFloat.eqb (fst kv) k)) (processes m))
                   (nextPid m) (notified m))
  | None => m
  end.

(** [getProcessList()] of [src/services/ProcessManager.ts], the earlier
    version whose map holds the VMs themselves and which does not sweep. *)
Definition getProcessList_old (h : Host) (now : float) (procs : list (float * VM))
  : list Proc.Process :=
  map (fun kv => let v := snd kv in
         Proc.mkProcess (pid v) (pid v) ("proc_" ++ num_to_string h (pid v))%string
                        (state v) 64 now None) procs.
End PM.

Definition entry_of (s : PState) (n : string) : PM.ProcessEntry :=
  PM.mkEntry (set_state s (vm_with [] [])) n 0 64 None.

Definition three_procs : PM.ProcessManager :=
  PM.mkPM [(100%float, entry_of RUNNING "a"); (101%float, entry_of TERMINATED "b");
           (102%float, entry_of WAITING_INPUT "c")] 103 0.


(** Inputs used by the examples and counterexamples below. *)


(** [preserves b m]: running [m] leaves memory byte [b] as it was. *)
Definition preserves {A} (b : Z) (m : M A) : Prop :=
  forall w, memory (vm (snd (m w))) b = memory (vm w) b.

(** A VM waiting on a scan with format [fmt] and argument addresses [args];
    byte [101] holds 9 and byte [200] holds 9. *)
Definition waiting_vm (fmt : string) (args : list (option float)) : VM :=
  mkVM 100%float (upd (upd empty_mem 101 9) 200 9) [] 1%float 60000%float 1024%float
       WAITING_INPUT [] 0 (Some (mkScan fmt args)).

Fixpoint no_nl (s : string) : bool :=
  match s with
  | EmptyString => true
  | String c s' => negb (c =? NL)%char && no_nl s'
  end.

(** What [pp_line] emits for [line] from loop state [st]. *)
Definition pp_emit (st : PPState) (line : string) : string :=
  if is_directive line then EmptyString
  else if isEmitting (pp_stack st) then line else EmptyString.

Definition no_tokens : CState := mkC [] 0 [] [] 0%float [] [] [] [].

Definition eq_example : CState := tokens_of [num "1"; sym "!="; num "2"; eof_tok].



(** The command word of a directive line: [parts[0]] of [preprocess]. *)
Definition directive_cmd (line : string) : string :=
  nth 0 (split_ws (substring1 (trim line))) EmptyString.

(** The number of open conditionals after [line]: [#ifdef] and [#ifndef]
    open one, [#endif] closes the innermost (none open: nothing happens). *)
Definition depth_step (d : nat) (line : string) : nat :=
  if is_directive line then
    if String.eqb (directive_cmd line) "ifdef" || String.eqb (directive_cmd line) "ifndef"
    then S d
    else if String.eqb (directive_cmd line) "endif" then Nat.pred d else d
  else d.

Definition cond_depth (lines : list string) : nat := fold_left depth_step lines 0%nat.

(* ================================================================== *)
(** * Theorems *)

Example mul_runs :
  fst (step sample_host 10
         (mkWorld (vm_with [mkInstr LIT (Some (ANum 6)); mkInstr LIT (Some (ANum 7));
                            mkInstr MUL None] []) [])) = false.
Proof. vm_compute. reflexivity. Qed.

Example mul_result :
  stack (vm (snd (step sample_host 10
         (mkWorld (vm_with [mkInstr LIT (Some (ANum 6)); mkInstr LIT (Some (ANum 7));
                            mkInstr MUL None] []) [])))) = [42%float].
Proof. vm_compute. reflexivity. Qed.

Example heap_start_empty :
  match new_ProcessVM 100 [] [] with Ok m => heapPointer m = 1024%float | _ => False end.
Proof. vm_compute. reflexivity. Qed.

Example heap_start_5 :
  match new_ProcessVM 100 [] [1;2;3;4;5] with Ok m => heapPointer m = 1032%float | _ => False end.
Proof. vm_compute. reflexivity. Qed.

(** Helper: a [DIV] whose divisor (top of stack) is 0 throws
    "Divide by zero" after popping both operands. *)
Lemma div_by_zero_throws (h : Host) (a : option Arg) (z : float) (s : list float) (m : VM) (o : list string) :
  PrimFloat.eqb z 0 = true ->
  stack m = z :: s ->
  fst (executeInstruction h (Some (mkInstr DIV a)) (mkWorld m o)) = Throw "Divide by zero"%string.
Proof.
  intros Hz Hs. destruct m; cbn in Hs; subst.
  destruct s as [|y s']; cbn; rewrite Hz; reflexivity.
Qed.

(** Helper: a [STORE] whose address [fp + off] is at or past [65532]
    throws a write segfault. *)
Lemma store_oob_throws (h : Host) (off : float) (m : VM) (o : list string) :
  PrimFloat.leb (Num.of_Z (MEM_SIZE - 4)) (fp m + off)%float = true ->
  exists e, fst (executeInstruction h (Some (mkInstr STORE (Some (ANum off)))) (mkWorld m o)) = Throw e.
Proof.
  intros Hle. destruct m as [p mem st pc0 fp0 hp sta c d sc]; cbn [fp] in Hle.
  destruct st; cbn; unfold setMemory; rewrite Hle, orb_true_r; eexists; reflexivity.
Qed.

(** C1 (code_bug).  [executeInstruction] has no [DUP] case: executing a
    [DUP] leaves the whole world, the evaluation stack included, as it was;
    nothing is duplicated. *)
Theorem dup_leaves_stack_unchanged (h : Host) (a : option Arg) (w : World) :
  executeInstruction h (Some (mkInstr DUP a)) w = (Ok tt, w).
Proof. reflexivity. Qed.

(** C2 (code_bug).  [executeInstruction] has no [LE] nor [GE] case: both
    leave the world unchanged; nothing is popped and no 0/1 is pushed. *)
Theorem le_ge_leave_stack_unchanged (h : Host) (a : option Arg) (w : World) :
  executeInstruction h (Some (mkInstr LE a)) w = (Ok tt, w) /\
  executeInstruction h (Some (mkInstr GE a)) w = (Ok tt, w).
Proof. split; reflexivity. Qed.

(** C2, at the failing input: a stack [1; 2] (2 on top) after [LE]. *)
Example le_on_1_2 :
  stack (vm (snd (step sample_host 1
     (mkWorld (vm_with [mkInstr LE None] [2%float; 1%float]) [])))) = [2%float; 1%float].
Proof. vm_compute. reflexivity. Qed.

(** C1, at the failing input: a stack [5] after [DUP]. *)
Example dup_on_5 :
  stack (vm (snd (step sample_host 1
     (mkWorld (vm_with [mkInstr DUP None] [5%float]) [])))) = [5%float].
Proof. vm_compute. reflexivity. Qed.

(** C3.  If the instruction at [pc] of a running VM throws (e.g. a [DIV]
    by 0, see [div_by_zero_throws], or an out-of-range access, see
    [store_oob_throws]), then [step] appends
    "\nSegmentation Fault (Core Dumped): <reason>\n" to stdout, sets the
    state to [TERMINATED] and returns [false]; [step] itself is total. *)
Theorem step_fault_reports_segfault (h : Host) (n : nat) (w w2 : World) (e : string) :
  state (vm w) = RUNNING ->
  PrimFloat.leb (Num.of_Z (Z.of_nat (List.length (code (vm w))))) (pc (vm w)) = false ->
  executeInstruction h (fetch (code (vm w)) (pc (vm w)))
    (mkWorld (set_pc (pc (vm w) + 1)%float (vm w)) (out w)) = (Throw e, w2) ->
  step h (S n) w =
    (false, mkWorld (set_state TERMINATED (vm w2)) (out w2 ++ [segfault_message e])).
Proof.
  intros Hrun Hpc Hex. unfold step. rewrite Hrun. cbn [is_stopped negb].
  cbn [step_loop]. rewrite Hpc. rewrite Hex. reflexivity.
Qed.

(** C10.  On a [TERMINATED] or [WAITING_INPUT] VM, [step] returns [false]
    and leaves the world (every VM field and the stdout log) unchanged. *)
Theorem step_stopped_is_noop (h : Host) (n : nat) (w : World) :
  state (vm w) = TERMINATED \/ state (vm w) = WAITING_INPUT ->
  step h n w = (false, w).
Proof.
  intros [H | H]; unfold step; rewrite H; reflexivity.
Qed.

Lemma step_fault_reports_segfault_witness :
  step sample_host 1 (mkWorld (vm_with [mkInstr DIV None] [0%float; 7%float]) []) =
  (false, mkWorld
     (set_state TERMINATED
        (vm (snd (executeInstruction sample_host (Some (mkInstr DIV None))
                    (mkWorld (set_pc 1%float (vm_with [mkInstr DIV None] [0%float; 7%float])) [])))))
     (out (snd (executeInstruction sample_host (Some (mkInstr DIV None))
                 (mkWorld (set_pc 1%float (vm_with [mkInstr DIV None] [0%float; 7%float])) [])))
      ++ [segfault_message "Divide by zero"%string])).
Proof.
  apply step_fault_reports_segfault; vm_compute; reflexivity.
Defined.

Lemma step_stopped_is_noop_witness :
  step sample_host 5 (mkWorld (set_state WAITING_INPUT (vm_with [mkInstr HALT None] [3%float])) [])
  = (false, mkWorld (set_state WAITING_INPUT (vm_with [mkInstr HALT None] [3%float])) []).
Proof.
  apply step_stopped_is_noop. right. reflexivity.
Defined.




























(** *** Frame lemmas: which memory bytes a computation leaves alone *)

Lemma preserves_ret {A} (b : Z) (a : A) : preserves b (ret a).
Proof. intros w. reflexivity. Qed.

Lemma preserves_bind {A B} (b : Z) (m : M A) (k : A -> M B) :
  preserves b m -> (forall a, preserves b (k a)) -> preserves b (bind m k).
Proof.
  intros Hm Hk w. unfold bind. specialize (Hm w).
  destruct (m w) as [[a|e] w'] eqn:E; cbn in *.
  - rewrite Hk. exact Hm.
  - exact Hm.
Qed.

Lemma preserves_throw {A} (b : Z) (e : string) : preserves b (@throw A e).
Proof. intros w. reflexivity. Qed.

Lemma write_bytes_outside (mem : Z -> Z) (base : Z) (bytes : nat -> Z) (n : nat) (b : Z) :
  ~ (base <= b < base + Z.of_nat n) -> write_bytes mem base bytes n b = mem b.
Proof.
  induction n as [|k IH]; intros Hout; cbn; [reflexivity|].
  unfold upd. destruct (b =? base + Z.of_nat k) eqn:E.
  - apply Z.eqb_eq in E. exfalso. apply Hout. lia.
  - apply IH. lia.
Qed.

Lemma preserves_setMemory (h : Host) (addr v : float) (b : Z) :
  ~ (Num.trunc addr <= b < Num.trunc addr + 4) -> preserves b (setMemory h addr v).
Proof.
  intros Hout w. unfold setMemory.
  destruct (_ || _); [reflexivity|].
  exact (write_bytes_outside (memory (vm w)) (Num.trunc addr) (f32_byte h v) 4 b Hout).
Qed.

Lemma preserves_setMemory64 (h : Host) (addr v : float) (b : Z) :
  ~ (Num.trunc addr <= b < Num.trunc addr + 8) -> preserves b (setMemory64 h addr v).
Proof.
  intros Hout w. unfold setMemory64.
  destruct (_ || _); [reflexivity|].
  exact (write_bytes_outside (memory (vm w)) (Num.trunc addr) (f64_byte h v) 8 b Hout).
Qed.

Lemma preserves_setMemoryByte (h : Host) (addr : float) (v b : Z) :
  Num.to_int addr <> Some b -> preserves b (setMemoryByte h addr v).
Proof.
  intros Hne w. unfold setMemoryByte.
  destruct (_ || _); [reflexivity|].
  destruct (Num.to_int addr) as [i|] eqn:E; [|reflexivity].
  cbn. unfold upd. destruct (b =? i) eqn:Eb; [|reflexivity].
  apply Z.eqb_eq in Eb. subst. contradiction.
Qed.

Lemma preserves_write_chars (h : Host) (addr : float) (raw : string) (k : nat) (b : Z) :
  (forall i, (i < String.length raw)%nat ->
     Num.to_int (addr + Num.of_Z (Z.of_nat (k + i)))%float <> Some b) ->
  preserves b (write_chars h addr k raw).
Proof.
  revert k. induction raw as [|c raw IH]; intros k Hall; cbn.
  - apply preserves_ret.
  - apply preserves_bind.
    + apply preserves_setMemoryByte.
      specialize (Hall 0%nat). rewrite Nat.add_0_r in Hall. apply Hall. cbn. lia.
    + intros _. apply IH. intros i Hi.
      specialize (Hall (S i)). rewrite Nat.add_succ_r in Hall. apply Hall. cbn. lia.
Qed.

Lemma preserves_scan_write (h : Host) (lmod : bool) (type : option ascii)
    (addr : float) (raw : string) (b : Z) :
  ~ footprint (lmod, type) addr raw b -> preserves b (scan_write h lmod type addr raw).
Proof.
  unfold footprint, scan_write; cbn [fst snd]. intros Hout.
  destruct type as [t|]; [|apply preserves_ret].
  destruct (t =? "d")%char; [now apply preserves_setMemory|].
  destruct (t =? "f")%char.
  { destruct lmod; [now apply preserves_setMemory64 | now apply preserves_setMemory]. }
  destruct (t =? "c")%char; [now apply preserves_setMemory|].
  destruct (t =? "s")%char; [|apply preserves_ret].
  apply preserves_bind.
  - apply preserves_write_chars. intros i Hi E. apply Hout.
    exists i. split; [lia | exact E].
  - intros _. apply preserves_setMemoryByte. intros E. apply Hout.
    exists (String.length raw). split; [lia | exact E].
Qed.

Lemma preserves_scan_loop (h : Host) (fuel : nat) :
  forall (fmt : string) (args : list (option float)) (inputs : list string) (j : nat) (b : Z),
  (forall i, (j + i < List.length inputs)%nat -> (j + i < List.length args)%nat ->
     (i < List.length (conversions_fuel fuel fmt))%nat ->
     ~ footprint (nth i (conversions_fuel fuel fmt) (false, None))
                 (jsnum (arg_at args (j + i))) (nth (j + i) inputs EmptyString) b) ->
  preserves b (scan_loop h fuel fmt args inputs j).
Proof.
  induction fuel as [|f IH]; intros fmt args inputs j b H; cbn [scan_loop].
  - apply preserves_ret.
  - destruct fmt as [|c rest]; [apply preserves_ret|].
    cbn [conversions_fuel] in H.
    destruct (c =? "%")%char.
    + destruct (parse_conv rest) as [[lmod type] rest'].
      destruct ((List.length inputs <=? j)%nat || (List.length args <=? j)%nat) eqn:Ebrk;
        [apply preserves_ret|].
      apply orb_false_iff in Ebrk as [E1 E2].
      apply Nat.leb_gt in E1. apply Nat.leb_gt in E2.
      apply preserves_bind.
      * apply preserves_scan_write.
        specialize (H 0%nat). rewrite Nat.add_0_r in H. apply H; cbn; lia.
      * intros _. apply IH. intros i Hi1 Hi2 Hi3.
        specialize (H (S i)). rewrite Nat.add_succ_r in H.
        apply H; cbn; lia.
    + apply IH. exact H.
Qed.

(** C7 (corrected).  Let [k] be the number of pieces of
    [input.trim().split(/\s+/)].  [resolveInput] writes for at most the
    first [k] conversions of the captured format (paired with the first [k]
    argument addresses): a memory byte that none of those writes covers
    keeps its value, whatever happens after, a thrown segfault included.
    In particular, when [k] is below the number of conversions, the bytes
    at the remaining argument addresses are untouched unless the first [k]
    writes overlap them. *)
Theorem resolveInput_writes_only_first_k (h : Host) (input : string) (w : World)
    (fmt : string) (args : list (option float)) (b : Z) :
  scanContext (vm w) = Some (mkScan fmt args) ->
  (forall j, (j < List.length (split_ws (trim input)))%nat -> (j < List.length args)%nat ->
     (j < List.length (conversions fmt))%nat ->
     ~ footprint (nth j (conversions fmt) (false, None)) (jsnum (arg_at args j))
                 (nth j (split_ws (trim input)) EmptyString) b) ->
  memory (vm (snd (resolveInput h input w))) b = memory (vm w) b.
Proof.
  intros Hctx Hout. unfold resolveInput, bind, gets; cbn [fst snd].
  rewrite Hctx. destruct (state (vm w)); try reflexivity.
  cbn [sc_fmt sc_args].
  apply (preserves_bind b _ _ (preserves_scan_loop h _ fmt args _ 0 b Hout)).
  intros _ w'. reflexivity.
Qed.

(** C7, counterexample: format "%s%s" at addresses 100 and 101, input "AB":
    one token, two conversions, yet the byte at the second address changes
    (from 9 to 'B' = 66), written by the first conversion. *)
Lemma resolveInput_second_address_overwritten :
  List.length (split_ws (trim "AB")) = 1%nat /\
  List.length (conversions "%s%s") = 2%nat /\
  memory (waiting_vm "%s%s" [Some 100%float; Some 101%float]) 101 = 9 /\
  memory (vm (snd (resolveInput sample_host "AB"
                     (mkWorld (waiting_vm "%s%s" [Some 100%float; Some 101%float]) [])))) 101 = 66.
Proof. vm_compute. repeat split; reflexivity. Qed.

Lemma resolveInput_writes_only_first_k_witness :
  memory (vm (snd (resolveInput sample_host "5"
            (mkWorld (waiting_vm "%d %d" [Some 100%float; Some 200%float]) [])))) 200
  = memory (waiting_vm "%d %d" [Some 100%float; Some 200%float]) 200.
Proof.
  apply (resolveInput_writes_only_first_k sample_host "5"
           (mkWorld (waiting_vm "%d %d" [Some 100%float; Some 200%float]) [])
           "%d %d" [Some 100%float; Some 200%float] 200).
  - reflexivity.
  - intros j Hj _ _. vm_compute in Hj. destruct j as [|j]; [|lia].
    vm_compute. intros [_ H]. discriminate H.
Defined.

(** *** The preprocessor *)

Example preprocess_ifdef_blanks :
  preprocess [] (join (String NL EmptyString)
                   ["#define A 2"; "int x;"; "  #ifdef B"; "int y;"; "#endif"; "z"])%string
  = Ok (join (String NL EmptyString) [EmptyString; "int x;"; EmptyString; EmptyString; EmptyString; "z"]%string,
        [("A"%string, "2"%string)]).
Proof. vm_compute. reflexivity. Qed.

Example preprocess_define_default :
  preprocess [] "#define FLAG"%string = Ok (EmptyString, [("FLAG"%string, "1"%string)]).
Proof. vm_compute. reflexivity. Qed.

Lemma split_nl_app (x r : string) :
  no_nl x = true -> split_nl (x ++ String NL r) = x :: split_nl r.
Proof.
  induction x as [|c x IH]; intros Hx; cbn in *.
  - reflexivity.
  - apply andb_true_iff in Hx as [Hc Hx]. apply negb_true_iff in Hc.
    rewrite Hc, IH by exact Hx. reflexivity.
Qed.

Lemma split_nl_single (x : string) : no_nl x = true -> split_nl x = [x].
Proof.
  induction x as [|c x IH]; intros Hx; cbn in *.
  - reflexivity.
  - apply andb_true_iff in Hx as [Hc Hx]. apply negb_true_iff in Hc.
    rewrite Hc, IH by exact Hx. reflexivity.
Qed.

Lemma split_join (ls : list string) :
  ls <> [] -> Forall (fun x => no_nl x = true) ls ->
  split_nl (join (String NL EmptyString) ls) = ls.
Proof.
  induction ls as [|x [|y ys] IH]; intros Hne Hall; [congruence| |].
  - inversion Hall; subst. cbn [join]. apply split_nl_single. assumption.
  - inversion Hall; subst.
    change (join (String NL EmptyString) (x :: y :: ys))
      with (x ++ String NL (join (String NL EmptyString) (y :: ys)))%string.
    rewrite split_nl_app by assumption. rewrite IH; [reflexivity|congruence|assumption].
Qed.

Lemma split_nl_no_nl (s : string) : Forall (fun x => no_nl x = true) (split_nl s).
Proof.
  induction s as [|c s IH]; cbn.
  - repeat constructor.
  - destruct (c =? NL)%char eqn:Ec.
    + constructor; [reflexivity | exact IH].
    + destruct (split_nl s) as [|x xs]; inversion IH; subst; constructor; cbn;
        try rewrite Ec; cbn; auto.
Qed.

Lemma split_nl_nonempty (s : string) : split_nl s <> [].
Proof.
  induction s as [|c s IH]; cbn; [congruence|].
  destruct (c =? NL)%char; [congruence|]. destruct (split_nl s); congruence.
Qed.

Lemma pp_line_out (st : PPState) (line : string) :
  pp_out (pp_line st line) = pp_emit st line :: pp_out st.
Proof.
  destruct st as [outl stack ms]. unfold pp_line, pp_emit, is_directive; cbn [pp_stack].
  destruct (startsWith_hash (trim line)); [|reflexivity].
  destruct (String.eqb _ "define"); [destruct (isEmitting stack); [destruct (nth_error _ 1) as [[|]|]|]|];
  try reflexivity.
  destruct (String.eqb _ "ifdef"); [reflexivity|].
  destruct (String.eqb _ "ifndef"); [reflexivity|].
  destruct (String.eqb _ "endif"); reflexivity.
Qed.

Lemma pp_fold_prefix (ls : list string) (st : PPState) :
  exists sfx, pp_out (fold_left pp_line ls st) = sfx ++ pp_out st /\ List.length sfx = List.length ls.
Proof.
  revert st. induction ls as [|l ls IH]; intros st; cbn.
  - exists []. split; reflexivity.
  - destruct (IH (pp_line st l)) as [sfx [E L]]. rewrite pp_line_out in E.
    exists (sfx ++ [pp_emit st l]). rewrite <- app_assoc. split; [exact E|].
    rewrite length_app, L. cbn. lia.
Qed.

Lemma pp_fold_nth (ls : list string) :
  forall (st : PPState) (i : nat) (line : string),
  nth_error ls i = Some line ->
  nth_error (rev (pp_out (fold_left pp_line ls st))) (List.length (pp_out st) + i)
  = Some (pp_emit (fold_left pp_line (firstn i ls) st) line).
Proof.
  induction ls as [|l ls IH]; intros st i line Hi; [destruct i; discriminate|].
  destruct i as [|i]; cbn in Hi |- *.
  - injection Hi as <-.
    destruct (pp_fold_prefix ls (pp_line st l)) as [sfx [E _]].
    rewrite E, pp_line_out, rev_app_distr. cbn.
    rewrite <- app_assoc, Nat.add_0_r, nth_error_app2; rewrite length_rev; [|lia].
    rewrite Nat.sub_diag. destruct (rev sfx); reflexivity.
  - replace (List.length (pp_out st) + S i)%nat
      with (List.length (pp_out (pp_line st l)) + i)%nat
      by (rewrite pp_line_out; cbn; lia).
    apply IH. exact Hi.
Qed.

Lemma pp_fold_no_nl (ls : list string) (st : PPState) :
  Forall (fun x => no_nl x = true) ls -> Forall (fun x => no_nl x = true) (pp_out st) ->
  Forall (fun x => no_nl x = true) (pp_out (fold_left pp_line ls st)).
Proof.
  revert st. induction ls as [|l ls IH]; intros st Hls Hst; cbn; [exact Hst|].
  inversion Hls; subst. apply IH; [assumption|].
  rewrite pp_line_out. constructor; [|exact Hst].
  unfold pp_emit. destruct (is_directive l); [reflexivity|].
  destruct (isEmitting _); [assumption|reflexivity].
Qed.

(** C9, counterexample: an unterminated [#ifdef] makes [preprocess] throw,
    so there is no output text at all. *)
Lemma preprocess_unterminated_throws :
  preprocess [] "#ifdef X"%string = Throw "Unterminated #ifdef/#ifndef block"%string.
Proof. vm_compute. reflexivity. Qed.

Lemma pp_line_depth (st : PPState) (line : string) :
  List.length (pp_stack (pp_line st line)) = depth_step (List.length (pp_stack st)) line.
Proof.
  destruct st as [outl stack ms].
  unfold pp_line, depth_step, is_directive, directive_cmd; cbn [pp_stack].
  destruct (startsWith_hash (trim line)); [|reflexivity].
  destruct (String.eqb _ "define") eqn:Ed.
  - assert (Hi : String.eqb (nth 0 (split_ws (substring1 (trim line))) EmptyString) "ifdef" = false)
      by (apply String.eqb_eq in Ed; rewrite Ed; reflexivity).
    assert (Hn : String.eqb (nth 0 (split_ws (substring1 (trim line))) EmptyString) "ifndef" = false)
      by (apply String.eqb_eq in Ed; rewrite Ed; reflexivity).
    assert (He : String.eqb (nth 0 (split_ws (substring1 (trim line))) EmptyString) "endif" = false)
      by (apply String.eqb_eq in Ed; rewrite Ed; reflexivity).
    rewrite Hi, Hn, He.
    destruct (isEmitting stack);
      [destruct (nth_error (split_ws (substring1 (trim line))) 1) as [[|]|]|]; reflexivity.
  - destruct (String.eqb _ "ifdef"); [reflexivity|].
    destruct (String.eqb _ "ifndef"); [reflexivity|].
    destruct (String.eqb _ "endif"); [|reflexivity].
    cbn. destruct stack; reflexivity.
Qed.

Lemma pp_fold_depth (ls : list string) (st : PPState) :
  List.length (pp_stack (fold_left pp_line ls st))
  = fold_left depth_step ls (List.length (pp_stack st)).
Proof.
  revert st. induction ls as [|l ls IH]; intros st; cbn; [reflexivity|].
  rewrite IH, pp_line_depth. reflexivity.
Qed.

(** C9 (corrected).  Let the depth of a text be the number of conditionals
    left open after its lines: [#ifdef] and [#ifndef] open one, [#endif]
    closes the innermost one and does nothing when none is open.
    [preprocess] succeeds exactly when the depth is 0; otherwise it throws
    [Unterminated #ifdef/#ifndef block].  When it succeeds, its output has
    as many lines as its input, and line [i] of the output is blank if line
    [i] of the input is a directive (starts with [#] after trimming) or lies
    where the conditional stack built by the lines before it is not
    all-true; otherwise it is line [i] unchanged. *)
Theorem preprocess_preserves_lines (ms : Macros) (src : string) :
  ((exists out ms', preprocess ms src = Ok (out, ms')) <-> cond_depth (split_nl src) = 0%nat)
  /\ (cond_depth (split_nl src) <> 0%nat ->
      preprocess ms src = Throw "Unterminated #ifdef/#ifndef block"%string)
  /\ (forall out ms', preprocess ms src = Ok (out, ms') ->
      List.length (split_nl out) = List.length (split_nl src) /\
      forall i line, nth_error (split_nl src) i = Some line ->
        nth_error (split_nl out) i =
          Some (if is_directive line then EmptyString
                else if isEmitting (pp_stack (fold_left pp_line (firstn i (split_nl src)) (mkPP [] [] ms)))
                     then line else EmptyString)).
Proof.
  assert (Hd : List.length (pp_stack (fold_left pp_line (split_nl src) (mkPP [] [] ms)))
               = cond_depth (split_nl src)) by (rewrite pp_fold_depth; reflexivity).
  split; [|split].
  - unfold preprocess. rewrite <- Hd.
    destruct (pp_stack (fold_left pp_line (split_nl src) (mkPP [] [] ms))); cbn.
    + split; [reflexivity|]. intros _. eexists. eexists. reflexivity.
    + split; [intros (? & ? & H); discriminate|discriminate].
  - unfold preprocess. rewrite <- Hd.
    destruct (pp_stack (fold_left pp_line (split_nl src) (mkPP [] [] ms))); cbn;
      [intros H; exfalso; apply H; reflexivity|reflexivity].
  - intros out ms'. unfold preprocess. intros H.
    destruct (pp_stack (fold_left pp_line (split_nl src) (mkPP [] [] ms))); [|discriminate].
    injection H as <- _.
    destruct (pp_fold_prefix (split_nl src) (mkPP [] [] ms)) as [sfx [E L]].
    cbn [pp_out] in E. rewrite app_nil_r in E.
    assert (Hsplit : split_nl (join (String NL EmptyString)
                       (rev (pp_out (fold_left pp_line (split_nl src) (mkPP [] [] ms)))))
                     = rev (pp_out (fold_left pp_line (split_nl src) (mkPP [] [] ms)))).
    { apply split_join.
      - rewrite E. intros Hn. apply (f_equal (@List.length string)) in Hn.
        rewrite length_rev, L in Hn. cbn in Hn.
        pose proof (split_nl_nonempty src). destruct (split_nl src); [congruence|discriminate].
      - apply Forall_rev. apply pp_fold_no_nl; [apply split_nl_no_nl | constructor]. }
    rewrite Hsplit. split.
    + rewrite E, length_rev. exact L.
    + intros i line Hi. exact (pp_fold_nth (split_nl src) (mkPP [] [] ms) i line Hi).
Qed.

Lemma preprocess_preserves_lines_witness :
  List.length (split_nl (join (String NL EmptyString) [EmptyString; "int x;"; EmptyString; EmptyString; EmptyString; "z"]%string)) =
  List.length (split_nl (join (String NL EmptyString)
                   ["#define A 2"; "int x;"; "  #ifdef B"; "int y;"; "#endif"; "z"]%string))
  /\ preprocess [] "#ifdef X"%string = Throw "Unterminated #ifdef/#ifndef block"%string.
Proof.
  split.
  - refine (proj1 (proj2 (proj2 (preprocess_preserves_lines []
      (join (String NL EmptyString) ["#define A 2"; "int x;"; "  #ifdef B"; "int y;"; "#endif"; "z"]%string)))
      (join (String NL EmptyString) [EmptyString; "int x;"; EmptyString; EmptyString; EmptyString; "z"]%string)
      [("A"%string, "2"%string)] _)).
    vm_compute. reflexivity.
  - apply (proj1 (proj2 (preprocess_preserves_lines [] "#ifdef X"%string))).
    vm_compute. discriminate.
Defined.

(** *** The lexer and [compile] *)

Example lex_main :
  match tokenizeString no_tokens "int main(){ x <= 'a'; } // c" 1 with
  | Ok ts => map value ts
  | Throw _ => []
  end = ["int"; "main"; "("; ")"; "{"; "x"; "<="; "a"; ";"; "}"]%string.
Proof. vm_compute. reflexivity. Qed.

Example lex_bad_char :
  tokenizeString no_tokens "'ab'" 1 = Throw "Line ?: Expected closing single quote"%string.
Proof. vm_compute. reflexivity. Qed.

(** C6.  Compiling the empty source succeeds with no instructions, an
    empty data segment and no warnings (whatever [parseFunction] is, and
    whatever the compiler held before); a process built from that artifact
    is terminated by its first [step] (of at least one cycle), which
    returns [false] and writes nothing. *)
Theorem compile_empty_then_terminates
    (parseFunction : CState -> Result CState) (st0 : CState)
    (h : Host) (p : float) (n : nat) (o : list string) :
  compile parseFunction st0 EmptyString = Ok ([], [], []) /\
  exists m, new_ProcessVM p [] [] = Ok m /\ state m = RUNNING /\
            step h (S n) (mkWorld m o) = (false, mkWorld (set_state TERMINATED m) o).
Proof.
  split; [reflexivity|].
  eexists. split; [reflexivity|]. split; reflexivity.
Qed.

(** *** [parseEquality] *)

Example parseEquality_1_neq_2 :
  match parseEquality number_parser (tokens_of [num "1"; sym "!="; num "2"; eof_tok]) with
  | Ok st => map op (instructions st)
  | Throw _ => []
  end = [LIT; LIT; NEQ].
Proof. vm_compute. reflexivity. Qed.

(** The first [Compiler] class emits [EQ] for [!=]; the current one (above)
    emits [NEQ]. *)
Example parseEquality_old_1_neq_2 :
  match parseEquality_old number_parser (tokens_of [num "1"; sym "!="; num "2"; eof_tok]) with
  | Ok st => map op (instructions st)
  | Throw _ => []
  end = [LIT; LIT; EQ].
Proof. vm_compute. reflexivity. Qed.

(** C5.  For any sub-parser [parseRelational]: if it compiles the left
    operand [a] (appending [ca]) and stops on an [op] token that is [!=]
    or [==], and then compiles the right operand [b] (appending [cb]) and
    stops on a token that is neither, [parseEquality] emits [ca], then
    [cb], then [NEQ] for [!=] or [EQ] for [==]. *)
Theorem parseEquality_emits_operands_then_op
    (parseRelational : CState -> Result CState) (st st1 st2 : CState)
    (ca cb : list Instruction) (op : Token) (next : Token) :
  In (value op) ["=="; "!="]%string ->
  parseRelational st = Ok st1 ->
  instructions st1 = instructions st ++ ca ->
  peek st1 = Some op ->
  parseRelational (advance st1) = Ok st2 ->
  instructions st2 = instructions st1 ++ cb ->
  peek st2 = Some next ->
  ~ In (value next) ["=="; "!="]%string ->
  exists st3, parseEquality parseRelational st = Ok st3 /\
    instructions st3 =
      instructions st ++ ca ++ cb ++
        [mkInstr (if String.eqb (value op) "!=" then NEQ else EQ) None].
Proof.
  intros Hop H1 Hc1 Hp1 H2 Hc2 Hp2 Hnext.
  unfold parseEquality. rewrite H1.
  assert (Hlen : exists k, List.length (tokens st1) = S k).
  { unfold peek in Hp1. destruct (tokens st1); [destruct (pos st1); discriminate|].
    eexists; reflexivity. }
  destruct Hlen as [k Hk]. rewrite Hk. cbn [equality_loop].
  rewrite Hp1.
  assert (Hin : existsb (String.eqb (value op)) ["=="; "!="]%string = true).
  { apply existsb_exists. exists (value op). split; [exact Hop|apply String.eqb_refl]. }
  rewrite Hin, H2. cbn [equality_loop].
  unfold peek at 1. cbn [emit tokens pos]. fold (peek st2). rewrite Hp2.
  assert (Hnin : existsb (String.eqb (value next)) ["=="; "!="]%string = false).
  { apply not_true_iff_false. intros Hx. apply existsb_exists in Hx as [x [Hx Ex]].
    apply String.eqb_eq in Ex. subst. apply Hnext. exact Hx. }
  rewrite Hnin. eexists. split; [reflexivity|].
  cbn [emit instructions]. rewrite Hc2, Hc1, <- !app_assoc.
  destruct Hop as [E|[E|[]]]; rewrite <- E; reflexivity.
Qed.

Lemma parseEquality_emits_operands_then_op_witness :
  exists st3, parseEquality number_parser eq_example = Ok st3 /\
    instructions st3 =
      instructions eq_example ++ [mkInstr LIT (Some (AStr "1"))] ++
        [mkInstr LIT (Some (AStr "2"))] ++ [mkInstr NEQ None].
Proof.
  exact (parseEquality_emits_operands_then_op number_parser eq_example
           (emit LIT (Some (AStr "1")) (advance eq_example))
           (emit LIT (Some (AStr "2"))
              (advance (advance (emit LIT (Some (AStr "1")) (advance eq_example)))))
           [mkInstr LIT (Some (AStr "1"))] [mkInstr LIT (Some (AStr "2"))]
           (sym "!=") eof_tok
           (or_intror (or_introl eq_refl)) eq_refl eq_refl eq_refl eq_refl eq_refl eq_refl
           (fun H => match H with
                     | or_introl E => ltac:(discriminate E)
                     | or_intror (or_introl E) => ltac:(discriminate E)
                     | or_intror (or_intror F) => match F with end
                     end)).
Defined.

(** *** [ProcessManager.getProcessList] *)

Example getProcessList_three :
  let '(m, snap) := PM.getProcessList three_procs in
  (map fst (PM.processes m), map Proc.state snap, PM.notified m)
  = ([100%float; 102%float], [RUNNING; WAITING_INPUT], 1%nat).
Proof. vm_compute. reflexivity. Qed.

(** The earlier [src/services/ProcessManager.ts] lists a terminated VM. *)
Example getProcessList_old_lists_terminated :
  map Proc.state (PM.getProcessList_old sample_host 0
                    [(100%float, set_state TERMINATED (vm_with [] []))])
  = [TERMINATED].
Proof. reflexivity. Qed.

Lemma sweep_kept (l : list (float * PM.ProcessEntry)) :
  Forall (fun kv => PM.is_terminated (snd kv) = false) (fst (PM.sweep l)).
Proof.
  induction l as [|[k e] rest IH]; cbn; [constructor|].
  destruct (PM.sweep rest) as [kept removed]; cbn in *.
  destruct (PM.is_terminated e) eqn:E; cbn; [exact IH|].
  constructor; [exact E|exact IH].
Qed.

Lemma cleanupTerminated_processes (m : PM.ProcessManager) :
  PM.processes (PM.cleanupTerminated m) = fst (PM.sweep (PM.processes m)).
Proof.
  unfold PM.cleanupTerminated. destruct (PM.sweep (PM.processes m)) as [kept []]; reflexivity.
Qed.

Lemma PState_eqb_TERMINATED (s : PState) :
  PState_eqb s TERMINATED = false -> s <> TERMINATED.
Proof. destruct s; cbn; congruence. Qed.

(** C8.  After [getProcessList], no entry of the process map has a VM in
    state [TERMINATED], and no record of the returned array has state
    [TERMINATED]. *)
Theorem getProcessList_no_terminated (m : PM.ProcessManager) :
  Forall (fun kv => state (PM.vm (snd kv)) <> TERMINATED)
         (PM.processes (fst (PM.getProcessList m))) /\
  Forall (fun p => Proc.state p <> TERMINATED) (snd (PM.getProcessList m)).
Proof.
  unfold PM.getProcessList; cbn [fst snd].
  rewrite cleanupTerminated_processes.
  pose proof (sweep_kept (PM.processes m)) as HK.
  split.
  - eapply Forall_impl; [|exact HK].
    intros [k e] H. apply PState_eqb_TERMINATED. exact H.
  - apply Forall_map. eapply Forall_impl; [|exact HK].
    intros [k e] H. cbn. apply PState_eqb_TERMINATED. exact H.
Qed.
